(** * windy: wind-rose histograms of NOAA daily summaries

    A shallow embedding of [histogram.py] and the properties of its
    cleaning, binning and monthly grouping steps.

    Conventions of the embedding.
    - A float64 is [NaN], a signed infinity or a finite value; finite
      values are the rationals they denote and their arithmetic is exact
      (no rounding, no overflow, no signed zero).  [np.pi] is the rational
      that the binary64 constant denotes.
    - Python exceptions are the [Raise] results of an error monad.
    - A pandas [Series] is its list of (label, value) pairs, in order; a
      [DataFrame] read by [pd.read_csv] is its list of rows, labelled
      0, 1, 2, ... (a RangeIndex).
    - Plotting calls are not modelled: [_polar_histogram] returns the local
      variables it hands to [ax.bar]. *)

From Stdlib Require Import List Arith ZArith QArith Qround Lqa Lia Bool.
From Stdlib Require Import Ascii String Sorted Permutation.
Import ListNotations.

(** ** Python exceptions *)

Module Py.

Inductive exception : Type :=
| ZeroDivisionError
| KeyError.

Inductive result (A : Type) : Type :=
| Ok (a : A)
| Raise (e : exception).

Arguments Ok {A} a.
Arguments Raise {A} e.

Definition bind {A B : Type} (r : result A) (k : A -> result B) : result B :=
  match r with
  | Ok a => k a
  | Raise e => Raise e
  end.

(** A list comprehension or [for] loop whose body may raise: the first
    exception ends the loop. *)
Fixpoint for_each {A B : Type} (body : A -> result B) (xs : list A)
  : result (list B) :=
  match xs with
  | [] => Ok []
  | x :: xs' =>
      bind (body x) (fun y =>
      bind (for_each body xs') (fun ys => Ok (y :: ys)))
  end.

(** [range(n)] *)
Definition range (n : nat) : list nat := seq 0 n.

(** [sub in s] on [str]: [sub] occurs in [s] as a contiguous substring. *)
Fixpoint startswith (sub s : string) : bool :=
  match sub, s with
  | EmptyString, _ => true
  | String _ _, EmptyString => false
  | String a sub', String b s' => Ascii.eqb a b && startswith sub' s'
  end.

Fixpoint str_in (sub s : string) : bool :=
  startswith sub s ||
  match s with
  | EmptyString => false
  | String _ s' => str_in sub s'
  end.

(** Decimal digits of a natural number, most significant first. *)
Definition digit (d : nat) : ascii := ascii_of_nat (48 + d).

Fixpoint digits_fuel (fuel n : nat) (acc : string) : string :=
  match fuel with
  | O => acc
  | S fuel' =>
      let acc' := String (digit (n mod 10)) acc in
      if n / 10 =? 0 then acc' else digits_fuel fuel' (n / 10) acc'
  end.

Definition str_of_nat (n : nat) : string := digits_fuel (S n) n EmptyString.

(** ['%02d' % n] for [n >= 0]: at least two digits, padded with zeros. *)
Definition fmt_02d (n : nat) : string :=
  let s := str_of_nat n in
  if String.length s <? 2 then String "0" s else s.

End Py.

Export Py.

Declare Scope py_scope.
Delimit Scope py_scope with py.
Notation "x <- r ;; k" := (bind r (fun x => k))
  (at level 61, r at next level, right associativity) : py_scope.
Notation "' p <- r ;; k" := (bind r (fun p => k))
  (at level 61, p pattern, r at next level, right associativity) : py_scope.

(** ** float64 values *)

Module Float64.

Inductive float64 : Type :=
| NaN
| Inf (negative : bool)
| Num (q : Q).

Definition Qltb (x y : Q) : bool := negb (Qle_bool y x).

Definition Qsign_neg (q : Q) : bool := Qltb q 0.

(** [np.isnan] *)
Definition isnan (x : float64) : bool :=
  match x with NaN => true | _ => false end.

(** unary minus *)
Definition fneg (x : float64) : float64 :=
  match x with
  | NaN => NaN
  | Inf s => Inf (negb s)
  | Num q => Num (- q)
  end.

Definition fadd (x y : float64) : float64 :=
  match x, y with
  | NaN, _ | _, NaN => NaN
  | Inf s, Inf t => if Bool.eqb s t then Inf s else NaN
  | Inf s, Num _ => Inf s
  | Num _, Inf t => Inf t
  | Num a, Num b => Num (a + b)
  end.

Definition fmul (x y : float64) : float64 :=
  match x, y with
  | NaN, _ | _, NaN => NaN
  | Inf s, Inf t => Inf (xorb s t)
  | Inf s, Num b => if Qeq_bool b 0 then NaN else Inf (xorb s (Qsign_neg b))
  | Num a, Inf t => if Qeq_bool a 0 then NaN else Inf (xorb (Qsign_neg a) t)
  | Num a, Num b => Num (a * b)
  end.

(** [x % y] on float64 arrays ([np.remainder]): the result has the sign
    of the divisor; a zero divisor or an infinite dividend gives NaN. *)
Definition fmod (x y : float64) : float64 :=
  match x, y with
  | NaN, _ | _, NaN => NaN
  | Inf _, _ => NaN
  | Num a, Inf t =>
      if Qeq_bool a 0 || Bool.eqb (Qsign_neg a) t then Num a else Inf t
  | Num a, Num b =>
      if Qeq_bool b 0 then NaN
      else Num (a - b * inject_Z (Qfloor (a / b)))
  end.

(** [x < y]; every comparison with NaN is false. *)
Definition flt (x y : float64) : bool :=
  match x, y with
  | NaN, _ | _, NaN => false
  | Inf s, Inf t => s && negb t
  | Inf s, Num _ => s
  | Num _, Inf t => negb t
  | Num a, Num b => Qltb a b
  end.

(** [x > y] *)
Definition fgt (x y : float64) : bool := flt y x.

(** [a / b] on integer arrays ([np.true_divide]): the float64 quotient;
    division by zero does not raise, it gives NaN for 0/0 and an
    infinity otherwise. *)
Definition true_divide (a b : Z) : float64 :=
  if (b =? 0)%Z then
    (if (a =? 0)%Z then NaN else Inf (a <? 0)%Z)
  else Num (inject_Z a / inject_Z b).

(** Two values denote the same float64. *)
Definition same (x y : float64) : Prop :=
  match x, y with
  | NaN, NaN => True
  | Inf s, Inf t => s = t
  | Num a, Num b => a == b
  | _, _ => False
  end.

Definition is_finite (x : float64) : bool :=
  match x with Num _ => true | _ => false end.

End Float64.

Export Float64.

(** ** numpy *)

Module Np.

(** [np.pi], the binary64 value 0x1.921fb54442d18p+1. *)
Definition pi : Q := 884279719003555 # 281474976710656.

(** [np.where(mask)[0]]: the positions of the true entries. *)
Fixpoint where_from (k : nat) (mask : list bool) : list nat :=
  match mask with
  | [] => []
  | b :: mask' =>
      if b then k :: where_from (S k) mask' else where_from (S k) mask'
  end.

Definition where_ (mask : list bool) : list nat := where_from 0 mask.

(** [np.deg2rad(x)] is [x * (pi / 180)]. *)
Definition deg2rad (x : float64) : float64 := fmul x (Num (pi / 180)).

(** [np.linspace(start, stop, num, endpoint=False)]:
    [start + i * ((stop - start) / num)] for [i] in [range(num)]. *)
Definition linspace (start stop : Q) (num : nat) : list Q :=
  let step := (stop - start) / inject_Z (Z.of_nat num) in
  map (fun i => inject_Z (Z.of_nat i) * step + start) (range num).

(** [a.sum()] on an integer array. *)
Definition sum (a : list nat) : nat := fold_right Nat.add 0%nat a.

End Np.

(** ** pandas *)

Module Pd.

(** A Series: (label, value) pairs in order. *)
Definition Series (A : Type) : Type := list (nat * A).

Definition values {A : Type} (s : Series A) : list A := map snd s.

Definition labels {A : Type} (s : Series A) : list nat := map fst s.

Fixpoint loc1 {A : Type} (s : Series A) (label : nat) : option A :=
  match s with
  | [] => None
  | (l, v) :: s' => if l =? label then Some v else loc1 s' label
  end.

(** [s[key]] for an integer array [key] on a Series with an integer
    index: the lookup is by label, not by position.  A label that is
    not in the index raises KeyError (pandas 1.0 and later; earlier
    versions put NaN there instead). *)
Definition getitem {A : Type} (s : Series A) (key : list nat)
  : result (Series A) :=
  for_each (fun l => match loc1 s l with
                     | Some v => Ok (l, v)
                     | None => Raise KeyError
                     end) key.

(** One observation row; only these columns are consulted. *)
Record row : Type := mkrow {
  DATE : string;
  WDF5 : float64;
  WSF5 : float64
}.

(** The table [pd.read_csv] returns, with its default RangeIndex. *)
Definition DataFrame : Type := list row.

(** [df[col]] *)
Definition column {A : Type} (col : row -> A) (df : DataFrame) : Series A :=
  combine (range (List.length df)) (map col df).

End Pd.

Export Pd.

Local Open Scope py_scope.
Local Open Scope Q_scope.

(** ** histogram.py *)

(** [_clean_wind_data(df)] *)
Definition _clean_wind_data (df : DataFrame)
  : result (Series string * Series float64 * Series float64) :=
  let index :=
    Np.where_ (map (fun '(d, s) => negb (isnan d) && negb (isnan s))
                   (combine (values (column WDF5 df))
                            (values (column WSF5 df)))) in
  date <- getitem (column DATE df) index ;;
  wd <- getitem (column WDF5 df) index ;;
  ws <- getitem (column WSF5 df) index ;;
  Ok (date, wd, ws).

(** The local variables of [_polar_histogram] when it calls [ax.bar]. *)
Record polar : Type := mkpolar {
  th : list float64;
  width : Q;
  counts : list nat;
  theta : list Q;
  radii : list float64
}.

(** The heading transform of line 52, on one sample. *)
Definition to_polar_angle (heading : float64) : float64 :=
  fmod (fadd (fneg heading) (Num (Np.pi / 2))) (Num (2 * Np.pi)).

(** The mask of lines 55-56 for bin [i], on one transformed sample. *)
Definition in_bin (width : Q) (i : nat) (t : float64) : bool :=
  fgt t (Num (width * inject_Z (Z.of_nat i))) &&
  flt t (Num (width * inject_Z (Z.of_nat (i + 1)))).

(** [_polar_histogram(ax, heading_rad, bins)] *)
Definition _polar_histogram (heading_rad : list float64) (bins : nat)
  : result polar :=
  let th := map to_polar_angle heading_rad in
  if (bins =? 0)%nat then Raise ZeroDivisionError else
  let width := 2 * Np.pi / inject_Z (Z.of_nat bins) in
  let counts :=
    map (fun i => List.length (Np.where_ (map (in_bin width i) th)))
        (range bins) in
  let theta := Np.linspace 0 (2 * Np.pi) bins in
  let radii :=
    map (fun c => true_divide (Z.of_nat c) (Z.of_nat (Np.sum counts)))
        counts in
  Ok (mkpolar th width counts theta radii).

(** The mask of line 86 for month [i] (0-based). *)
Definition month_mask (i : nat) (date : list string) : list bool :=
  map (fun d => str_in (String "-" (fmt_02d (i + 1) ++ "-")) d) date.

(** The body of the monthly loop, lines 86-93. *)
Definition month_histogram (hist_bins : nat)
  (date : Series string) (wd : Series float64) (i : nat) : result polar :=
  let index := Np.where_ (month_mask i (values date)) in
  wdi <- getitem wd index ;;
  _polar_histogram (map Np.deg2rad (values wdi)) hist_bins.

(** [main()] from the loaded table on, with [hist_bins] as a parameter:
    the aggregate histogram and the twelve monthly ones. *)
Definition main_with (hist_bins : nat) (df : DataFrame)
  : result (polar * list polar) :=
  '(date, wd, ws) <- _clean_wind_data df ;;
  all <- _polar_histogram (map Np.deg2rad (values wd)) hist_bins ;;
  monthly <- for_each (month_histogram hist_bins date wd) (range 12) ;;
  Ok (all, monthly).

Definition hist_bins : nat := 20.

Definition main (df : DataFrame) : result (polar * list polar) :=
  main_with hist_bins df.

(** ** Definitions used to state the properties *)

(** Sum of a float64 array, left to right from zero. *)
Definition fsum (xs : list float64) : float64 :=
  fold_left fadd xs (Num 0).


(** The transformed sample is an integer multiple of the bin width. *)
Definition on_edge (w : Q) (t : float64) : bool :=
  match t with
  | Num x => Qeq_bool x (w * inject_Z (Qfloor (x / w)))
  | _ => false
  end.

(** Following the specification's words: [r] is [a mod m], the
    representative of [a] modulo [m] in the interval from 0 (included) to
    [m] (excluded). *)
Definition is_mod (a m r : Q) : Prop :=
  0 <= r /\ r < m /\ exists k : Z, a == r + inject_Z k * m.

(** Following the specification's words: the transformed angle of a
    heading, [(-heading + pi/2) mod 2 pi]. *)
Definition spec_transform (heading r : Q) : Prop :=
  is_mod (- heading + Np.pi / 2) (2 * Np.pi) r.

(** A row is kept by the cleaner: neither field is NaN. *)
Definition is_clean (r : row) : bool :=
  negb (isnan (WDF5 r)) && negb (isnan (WSF5 r)).

(** Element-wise sum of integer arrays of one length. *)
Fixpoint add_counts (a b : list nat) : list nat :=
  match a, b with
  | x :: a', y :: b' => (x + y)%nat :: add_counts a' b'
  | _, _ => []
  end.

(** A date string of the form YYYY-MM-DD with month 01..12. *)
Definition is_digit (c : ascii) : bool :=
  let n := nat_of_ascii c in ((48 <=? n) && (n <=? 57))%nat.

Definition digit_val (c : ascii) : nat := (nat_of_ascii c - 48)%nat.

Definition is_iso_date (d : string) : bool :=
  match d with
  | String y1 (String y2 (String y3 (String y4 (String s1
      (String m1 (String m2 (String s2
        (String d1 (String d2 EmptyString))))))))) =>
      Ascii.eqb s1 "-" && Ascii.eqb s2 "-" &&
      is_digit y1 && is_digit y2 && is_digit y3 && is_digit y4 &&
      is_digit m1 && is_digit m2 && is_digit d1 && is_digit d2 &&
      ((1 <=? 10 * digit_val m1 + digit_val m2) &&
       (10 * digit_val m1 + digit_val m2 <=? 12))%nat
  | _ => false
  end.



(** Bin-by-bin sum of the counts of several histograms of [bins] bins. *)
Definition sum_counts (bins : nat) (hs : list polar) : list nat :=
  fold_right (fun h acc => add_counts (counts h) acc) (repeat 0%nat bins) hs.

(** A year of daily summaries, one clean row per month, after a first row
    whose direction is missing. *)
Definition year_with_gap : DataFrame :=
  [ mkrow "2018-01-01" NaN (Num 5);
    mkrow "2018-01-02" (Num 15) (Num 5);
    mkrow "2018-02-02" (Num 25) (Num 5);
    mkrow "2018-03-02" (Num 35) (Num 5);
    mkrow "2018-04-02" (Num 45) (Num 5);
    mkrow "2018-05-02" (Num 55) (Num 5);
    mkrow "2018-06-02" (Num 65) (Num 5);
    mkrow "2018-07-02" (Num 75) (Num 5);
    mkrow "2018-08-02" (Num 85) (Num 5);
    mkrow "2018-09-02" (Num 95) (Num 5);
    mkrow "2018-10-02" (Num 105) (Num 5);
    mkrow "2018-11-02" (Num 115) (Num 5);
    mkrow "2018-12-02" (Num 125) (Num 5) ].

(** The four cardinal compass headings, in radians. *)
Definition cardinal_headings : list float64 :=
  map Np.deg2rad [Num 0; Num 90; Num 180; Num 270].


(** [int(x)] on a finite float: truncation toward zero. *)
Definition int_ (x : Q) : Z := Z.quot (Qnum x) (Zpos (Qden x)).

(** One [plt.subplot2grid(shape, loc, rowspan, colspan)] call. *)
Record subplot : Type := mksubplot {
  shape : nat * nat;
  loc : nat * nat;
  rowspan : nat;
  colspan : nat
}.

(** The aggregate axes of line 78. *)
Definition aggregate_subplot : subplot := mksubplot (2, 8)%nat (0, 0)%nat 2 2.

(** The axes of month [i] (0-based), lines 90-92; [rowspan] and [colspan]
    default to 1. *)
Definition month_subplot (i : nat) : subplot :=
  let r := Z.to_nat (int_ (inject_Z (Z.of_nat i) / 6)) in
  let c := (i mod 6 + 2)%nat in
  mksubplot (2, 8)%nat (r, c) 1 1.

(** The thirteen axes [main] creates, in order. *)
Definition main_subplots : list subplot :=
  aggregate_subplot :: map month_subplot (range 12).

(** The grid cell (row, column) lies under the axes. *)
Definition covers (s : subplot) (cell : nat * nat) : bool :=
  ((fst (loc s) <=? fst cell) && (fst cell <? fst (loc s) + rowspan s) &&
   (snd (loc s) <=? snd cell) && (snd cell <? snd (loc s) + colspan s))%nat.

(** The axes stay inside the grid of their shape. *)
Definition inside_grid (s : subplot) : bool :=
  ((fst (loc s) + rowspan s <=? fst (shape s)) &&
   (snd (loc s) + colspan s <=? snd (shape s)))%nat.

(** ** Lists, masks and counting *)

Section Counting.

Context {A : Type}.

Lemma where_from_length (f : A -> bool) (l : list A) (k : nat) :
  List.length (Np.where_from k (map f l)) = List.length (filter f l).
Proof.
  revert k; induction l as [|a l IH]; intros k; simpl; [reflexivity|].
  destruct (f a); simpl; rewrite IH; reflexivity.
Qed.

Lemma where_length (f : A -> bool) (l : list A) :
  List.length (Np.where_ (map f l)) = List.length (filter f l).
Proof. apply where_from_length. Qed.





End Counting.




Lemma sum_repeat_zero (n : nat) : Np.sum (repeat 0%nat n) = 0%nat.
Proof. induction n; simpl; auto. Qed.

Lemma map_const_seq {B : Type} (b : B) (s n : nat) :
  map (fun _ => b) (seq s n) = repeat b n.
Proof. revert s; induction n; intros s; simpl; [|rewrite IHn]; reflexivity. Qed.

(** ** Comparisons and bins on float64 *)

Lemma Qltb_lt (x y : Q) : Qltb x y = true <-> x < y.
Proof.
  unfold Qltb. rewrite negb_true_iff. split; intros H.
  - apply Qnot_le_lt. intros Hle. apply Qle_bool_iff in Hle. congruence.
  - destruct (Qle_bool y x) eqn:E; [|reflexivity].
    apply Qle_bool_iff in E. apply Qle_not_lt in E. contradiction.
Qed.



Lemma in_bin_Num (w : Q) (i : nat) (x : Q) :
  in_bin w i (Num x) = true <->
  w * inject_Z (Z.of_nat i) < x /\ x < w * inject_Z (Z.of_nat (i + 1)).
Proof.
  unfold in_bin, fgt, flt. rewrite andb_true_iff, !Qltb_lt. reflexivity.
Qed.


Section Bins.

Variable w : Q.
Hypothesis w_pos : 0 < w.



(** The bin index of a non-negative finite sample: the floor of x / w. *)
Lemma floor_bracket (x : Q) :
  w * inject_Z (Qfloor (x / w)) <= x /\
  x < w * (inject_Z (Qfloor (x / w)) + 1).
Proof.
  assert (Hx : x == w * (x / w)) by (field; lra).
  pose proof (Qfloor_le (x / w)) as Hlo.
  pose proof (Qlt_floor (x / w)) as Hhi.
  rewrite inject_Z_plus in Hhi.
  split.
  - rewrite Hx at 2. apply Qmult_le_l; assumption.
  - rewrite Hx at 1. apply Qmult_lt_l; assumption.
Qed.




Lemma edge_not_in_bin (i : nat) (x : Q) :
  x == w * inject_Z (Z.of_nat i) \/ x == w * inject_Z (Z.of_nat (i + 1)) ->
  in_bin w i (Num x) = false.
Proof.
  intros H. destruct (in_bin w i (Num x)) eqn:E; [|reflexivity].
  apply in_bin_Num in E. destruct E as [E1 E2].
  destruct H as [H|H]; rewrite H in *; exfalso;
    eapply Qlt_irrefl; eauto.
Qed.

End Bins.

(** ** The heading transform *)

Lemma pi_pos : 0 < Np.pi.
Proof. reflexivity. Qed.

Lemma two_pi_pos : 0 < 2 * Np.pi.
Proof. reflexivity. Qed.

Lemma to_polar_angle_Num (q : Q) :
  to_polar_angle (Num q) =
  Num ((- q + Np.pi / 2)
       - 2 * Np.pi * inject_Z (Qfloor ((- q + Np.pi / 2) / (2 * Np.pi)))).
Proof. reflexivity. Qed.

Lemma to_polar_angle_not_finite (h : float64) :
  is_finite h = false -> to_polar_angle h = NaN.
Proof. destruct h as [|s|q]; intros H; try discriminate; reflexivity. Qed.

Lemma to_polar_angle_spec (q : Q) :
  exists r, to_polar_angle (Num q) = Num r /\ spec_transform q r.
Proof.
  eexists. split; [apply to_polar_angle_Num|].
  unfold spec_transform, is_mod.
  set (a := - q + Np.pi / 2).
  destruct (floor_bracket (2 * Np.pi) two_pi_pos a) as [Hlo Hhi].
  set (k := Qfloor (a / (2 * Np.pi))) in *.
  repeat split.
  - lra.
  - lra.
  - exists k. ring.
Qed.

Lemma is_mod_unique (a m r r' : Q) :
  0 < m -> is_mod a m r -> is_mod a m r' -> r == r'.
Proof.
  intros Hm (H0 & H1 & k & Hk) (H0' & H1' & k' & Hk').
  assert (Hd : r - r' == inject_Z (k' - k) * m).
  { unfold Z.sub. rewrite inject_Z_plus, inject_Z_opp. lra. }
  assert (Hlt : inject_Z (k' - k) * m < 1 * m) by lra.
  assert (Hgt : inject_Z (-1) * m < inject_Z (k' - k) * m).
  { change (inject_Z (-1)) with (-1 # 1). lra. }
  apply Qmult_lt_r in Hlt; [|exact Hm].
  apply Qmult_lt_r in Hgt; [|exact Hm].
  change 1 with (inject_Z 1) in Hlt.
  rewrite <- Zlt_Qlt in Hlt, Hgt.
  assert (Hz : (k' - k = 0)%Z) by lia.
  rewrite Hz in Hd. change (inject_Z 0) with 0 in Hd. lra.
Qed.


(** ** The binner *)

Lemma inject_nat_pos (bins : nat) :
  (1 <= bins)%nat -> 0 < inject_Z (Z.of_nat bins).
Proof.
  intros H. change 0 with (inject_Z 0). rewrite <- Zlt_Qlt. lia.
Qed.

Lemma width_pos (bins : nat) :
  (1 <= bins)%nat -> 0 < 2 * Np.pi / inject_Z (Z.of_nat bins).
Proof.
  intros H. apply Qlt_shift_div_l.
  - apply inject_nat_pos; assumption.
  - rewrite Qmult_0_l. exact two_pi_pos.
Qed.

Lemma width_tiles (bins : nat) :
  (1 <= bins)%nat ->
  2 * Np.pi / inject_Z (Z.of_nat bins) * inject_Z (Z.of_nat bins) == 2 * Np.pi.
Proof.
  intros H. pose proof (inject_nat_pos bins H). field. lra.
Qed.

(** With at least one bin nothing raises, and the locals are these. *)
Lemma polar_histogram_Ok (heading_rad : list float64) (bins : nat) :
  (1 <= bins)%nat ->
  let w := 2 * Np.pi / inject_Z (Z.of_nat bins) in
  let t := map to_polar_angle heading_rad in
  let c := map (fun i => List.length (filter (in_bin w i) t)) (range bins) in
  _polar_histogram heading_rad bins =
  Ok (mkpolar t w c (Np.linspace 0 (2 * Np.pi) bins)
        (map (fun n => true_divide (Z.of_nat n) (Z.of_nat (Np.sum c))) c)).
Proof.
  intros H w t c. unfold _polar_histogram.
  destruct (Nat.eqb_spec bins 0) as [E|_]; [lia|].
  fold w. fold t.
  assert (Hc : map (fun i => List.length (Np.where_ (map (in_bin w i) t)))
                   (range bins) = c).
  { unfold c. apply map_ext. intros i. apply where_length. }
  rewrite Hc. reflexivity.
Qed.

Lemma polar_histogram_zero_bins (heading_rad : list float64) :
  _polar_histogram heading_rad 0 = Raise ZeroDivisionError.
Proof. reflexivity. Qed.

Lemma nth_map_range {B : Type} (f : nat -> B) (d : B) (n i : nat) :
  (i < n)%nat -> nth i (map f (range n)) d = f i.
Proof.
  intros H. unfold range.
  rewrite (nth_indep _ d (f 0%nat)) by (rewrite length_map, length_seq; lia).
  rewrite (map_nth f (seq 0 n) 0%nat i), seq_nth by lia. reflexivity.
Qed.

Lemma fsum_quotients (T : Q) (cs : list nat) (a : Q) :
  exists q,
    fold_left fadd (map (fun c => Num (inject_Z (Z.of_nat c) / T)) cs) (Num a)
    = Num q /\
    q == a + inject_Z (Z.of_nat (Np.sum cs)) / T.
Proof.
  revert a. induction cs as [|c cs IH]; intros a; simpl.
  - exists a. split; [reflexivity|].
    change (inject_Z 0) with 0. unfold Qdiv. ring.
  - destruct (IH (a + inject_Z (Z.of_nat c) / T)) as (q & Hq & Hs).
    exists q. split; [exact Hq|].
    rewrite Hs, Nat2Z.inj_add, inject_Z_plus. unfold Qdiv. ring.
Qed.


(** ** Properties of the binner *)





(** C6: with at least one bin, when some bin count is non-zero the
    normalized frequencies are finite and sum to 1 (exact arithmetic). *)
Theorem radii_sum_to_one (heading_rad : list float64) (bins : nat) :
  (1 <= bins)%nat ->
  exists p,
    _polar_histogram heading_rad bins = Ok p /\
    List.length (radii p) = bins /\
    (Np.sum (counts p) <> 0%nat -> same (fsum (radii p)) (Num 1)).
Proof.
  intros Hb. eexists. split; [apply polar_histogram_Ok; exact Hb|].
  cbn [counts radii].
  set (c := map _ (range bins)).
  split.
  - unfold c, range. rewrite !length_map, length_seq. reflexivity.
  - intros Hnz. unfold fsum.
    assert (Hdiv : forall n,
               true_divide (Z.of_nat n) (Z.of_nat (Np.sum c)) =
               Num (inject_Z (Z.of_nat n) / inject_Z (Z.of_nat (Np.sum c)))).
    { intros n. unfold true_divide.
      destruct (Z.eqb_spec (Z.of_nat (Np.sum c)) 0) as [E|_]; [lia|].
      reflexivity. }
    rewrite (map_ext _ _ Hdiv).
    destruct (fsum_quotients (inject_Z (Z.of_nat (Np.sum c))) c 0)
      as (q & -> & Hq).
    simpl. rewrite Hq.
    assert (Hpos : 0 < inject_Z (Z.of_nat (Np.sum c)))
      by (apply inject_nat_pos; lia).
    field. lra.
Qed.

Lemma radii_sum_to_one_witness :
  (1 <= 4)%nat /\
  exists p,
    _polar_histogram [Num 0; Num 1; Num 3] 4 = Ok p /\
    Np.sum (counts p) <> 0%nat /\
    same (fsum (radii p)) (Num 1).
Proof.
  split; [lia|].
  destruct (radii_sum_to_one [Num 0; Num 1; Num 3] 4)
    as (p & Hp & _ & Hsum); [lia|].
  exists p. split; [exact Hp|].
  assert (Hnz : Np.sum (counts p) <> 0%nat).
  { vm_compute in Hp. injection Hp as <-. vm_compute. discriminate. }
  split; [exact Hnz | exact (Hsum Hnz)].
Defined.



Lemma head_count (w : Q) (i : nat) (t : float64) (ts : list float64) :
  in_bin w i t = false ->
  List.length (filter (in_bin w i) (t :: ts)) =
  List.length (filter (in_bin w i) ts).
Proof. intros H. simpl. rewrite H. reflexivity. Qed.

Lemma quarter_turn_in_no_bin (w : Q) (i : nat) :
  0 < w -> in_bin w i (to_polar_angle (Num (Np.pi / 2))) = false.
Proof.
  intros Hw.
  destruct (in_bin w i (to_polar_angle (Num (Np.pi / 2)))) eqn:E;
    [|reflexivity].
  rewrite to_polar_angle_Num in E. apply in_bin_Num in E.
  destruct E as [E _]. exfalso.
  assert (Hz : - (Np.pi / 2) + Np.pi / 2
               - 2 * Np.pi
                 * inject_Z (Qfloor ((- (Np.pi / 2) + Np.pi / 2) / (2 * Np.pi)))
               == 0) by reflexivity.
  rewrite Hz in E.
  assert (Hi : 0 <= inject_Z (Z.of_nat i)).
  { change 0 with (inject_Z 0). rewrite <- Zle_Qle. lia. }
  pose proof (Qmult_le_0_compat _ _ (Qlt_le_weak _ _ Hw) Hi) as Hp.
  lra.
Qed.

(** C3: a sample whose transformed angle equals the lower edge
    [width * i] or the upper edge [width * (i + 1)] of bin [i] is not
    selected by that bin's mask and does not change that bin's count; and
    a sample can be missed by every bin: the heading pi/2, transformed to
    0, leaves all [bins] counts at 0. *)
Theorem edge_sample_excluded
        (heading_rad : list float64) (bins i : nat) (h : float64) (x : Q) :
  (1 <= bins)%nat ->
  (i < bins)%nat ->
  to_polar_angle h = Num x ->
  x == 2 * Np.pi / inject_Z (Z.of_nat bins) * inject_Z (Z.of_nat i) \/
  x == 2 * Np.pi / inject_Z (Z.of_nat bins) * inject_Z (Z.of_nat (i + 1)) ->
  (exists p p',
     _polar_histogram heading_rad bins = Ok p /\
     _polar_histogram (h :: heading_rad) bins = Ok p' /\
     in_bin (width p') i (to_polar_angle h) = false /\
     nth i (counts p') 0%nat = nth i (counts p) 0%nat) /\
  (exists p0,
     _polar_histogram [Num (Np.pi / 2)] bins = Ok p0 /\
     counts p0 = repeat 0%nat bins).
Proof.
  intros Hb Hi Hx Hedge.
  pose proof (width_pos bins Hb) as Hw.
  split.
  - do 2 eexists.
    split; [apply polar_histogram_Ok; exact Hb|].
    split; [apply polar_histogram_Ok; exact Hb|].
    cbn [counts width].
    set (w := 2 * Np.pi / inject_Z (Z.of_nat bins)) in *.
    assert (Hout : in_bin w i (to_polar_angle h) = false).
    { rewrite Hx. apply edge_not_in_bin. exact Hedge. }
    split; [exact Hout|].
    rewrite (nth_map_range
               (fun i => List.length
                           (filter (in_bin w i)
                                   (map to_polar_angle (h :: heading_rad)))))
      by exact Hi.
    rewrite (nth_map_range
               (fun i => List.length
                           (filter (in_bin w i)
                                   (map to_polar_angle heading_rad))))
      by exact Hi.
    simpl map. apply head_count. exact Hout.
  - eexists. split; [apply polar_histogram_Ok; exact Hb|].
    cbn [counts]. rewrite <- (map_const_seq 0%nat 0 bins).
    apply map_ext. intros k. simpl map.
    rewrite head_count by (apply quarter_turn_in_no_bin; exact Hw).
    reflexivity.
Qed.

Lemma edge_sample_excluded_witness :
  (1 <= 4)%nat /\ (1 < 4)%nat /\
  (exists x,
     to_polar_angle (Num 0) = Num x /\
     x == 2 * Np.pi / inject_Z (Z.of_nat 4) * inject_Z (Z.of_nat 1)) /\
  exists p p',
    _polar_histogram [Num 1] 4 = Ok p /\
    _polar_histogram [Num 0; Num 1] 4 = Ok p' /\
    nth 1 (counts p') 0%nat = nth 1 (counts p) 0%nat.
Proof.
  assert (Hedge :
            - 0 + Np.pi / 2
            - 2 * Np.pi * inject_Z (Qfloor ((- 0 + Np.pi / 2) / (2 * Np.pi)))
            == 2 * Np.pi / inject_Z (Z.of_nat 4) * inject_Z (Z.of_nat 1))
    by reflexivity.
  split; [lia|]. split; [lia|].
  split; [eexists; split; [apply to_polar_angle_Num | exact Hedge]|].
  destruct (edge_sample_excluded [Num 1] 4 1 (Num 0) _
              ltac:(lia) ltac:(lia) (to_polar_angle_Num 0) (or_introl Hedge))
    as ((p & p' & Hp & Hp' & _ & Hn) & _).
  exists p, p'. auto.
Defined.

(** ** The empty input and the four cardinal headings *)

Lemma where_from_no_match {A : Type} (f : A -> bool) (l : list A) (k : nat) :
  Forall (fun a => f a = false) l -> Np.where_from k (map f l) = [].
Proof.
  intros H. revert k. induction H as [|a l Ha _ IH]; intros k; simpl.
  - reflexivity.
  - rewrite Ha. apply IH.
Qed.

Lemma empty_counts (w : Q) (bins : nat) :
  map (fun i => List.length (filter (in_bin w i) (map to_polar_angle [])))
      (range bins) = repeat 0%nat bins.
Proof. exact (map_const_seq 0%nat 0 bins). Qed.

Lemma zero_over_zero (bins : nat) :
  map (fun n => true_divide (Z.of_nat n) (Z.of_nat 0)) (repeat 0%nat bins) =
  repeat NaN bins.
Proof.
  induction bins as [|n IH]; [reflexivity|].
  cbn [repeat map]. rewrite IH. reflexivity.
Qed.

(** C1, as stated, fails: for the empty input and one bin the normalized
    frequency is NaN, not zero. *)
Lemma empty_input_radii_not_zero :
  ~ (forall bins : nat,
        (1 <= bins)%nat ->
        exists p,
          _polar_histogram [] bins = Ok p /\
          Forall (fun r => same r (Num 0)) (radii p)).
Proof.
  intros H. destruct (H 1%nat (le_n 1)) as (p & Hp & Hall).
  vm_compute in Hp. injection Hp as <-.
  cbn [radii] in Hall. inversion Hall as [|r rs Hr _]. exact Hr.
Qed.

(** C1, amended: for the empty input and at least one bin nothing raises,
    every bin count is 0 and every normalized frequency is the quotient
    0/0, NaN; a month whose mask selects no date is binned as the empty
    input. *)
Theorem empty_input_gives_nan (bins : nat) :
  (1 <= bins)%nat ->
  (exists p,
     _polar_histogram [] bins = Ok p /\
     counts p = repeat 0%nat bins /\
     radii p = repeat NaN bins) /\
  (forall (date : Series string) (wd : Series float64) (i : nat),
     Forall (fun d => str_in (String "-" (fmt_02d (i + 1) ++ "-")) d = false)
            (values date) ->
     month_histogram bins date wd i = _polar_histogram [] bins).
Proof.
  intros Hb. split.
  - eexists. split; [apply polar_histogram_Ok; exact Hb|].
    cbn [counts radii]. rewrite (empty_counts _ bins).
    split; [reflexivity|].
    rewrite sum_repeat_zero. apply zero_over_zero.
  - intros date wd i Hnone. unfold month_histogram, month_mask, Np.where_.
    rewrite (where_from_no_match
               (fun d => str_in (String "-" (fmt_02d (i + 1) ++ "-")) d)
               _ 0 Hnone).
    reflexivity.
Qed.

Lemma empty_input_gives_nan_witness :
  (1 <= 3)%nat /\
  exists p,
    _polar_histogram [] 3 = Ok p /\
    counts p = [0; 0; 0]%nat /\
    radii p = [NaN; NaN; NaN].
Proof.
  split; [lia|].
  destruct (empty_input_gives_nan 3) as ((p & Hp & Hc & Hr) & _); [lia|].
  exists p. auto.
Defined.

(** C2, as stated, fails: the four cardinal headings with 4 bins do not
    give one sample per bin and frequency 1/4. *)
Lemma cardinal_headings_not_one_per_bin :
  ~ (exists p,
        _polar_histogram cardinal_headings 4 = Ok p /\
        counts p = [1; 1; 1; 1]%nat /\
        Forall (fun r => same r (Num (1 # 4))) (radii p)).
Proof.
  intros (p & Hp & Hc & _).
  vm_compute in Hp. injection Hp as <-.
  cbn [counts] in Hc. discriminate Hc.
Qed.

(** C2, amended: the four cardinal headings are transformed to pi/2, 0,
    3 pi/2 and pi, each a multiple of the width pi/2 of 4 bins, so no
    sample is counted: every bin count is 0 and every normalized frequency
    is NaN.  The same headings turned by half a bin (45, 135, 225 and 315
    degrees) fall one in each of the 4 bins, each with frequency 1/4. *)
Theorem cardinal_headings_all_on_edges :
  (exists p,
     _polar_histogram cardinal_headings 4 = Ok p /\
     Forall2 same (th p)
       [Num (Np.pi / 2); Num 0; Num (3 * Np.pi / 2); Num Np.pi] /\
     width p == Np.pi / 2 /\
     Forall (fun t => on_edge (width p) t = true) (th p) /\
     counts p = [0; 0; 0; 0]%nat /\
     radii p = [NaN; NaN; NaN; NaN]) /\
  (exists p,
     _polar_histogram
       (map Np.deg2rad [Num 45; Num 135; Num 225; Num 315]) 4 = Ok p /\
     counts p = [1; 1; 1; 1]%nat /\
     Forall (fun r => same r (Num (1 # 4))) (radii p)).
Proof.
  split.
  - eexists. split; [vm_compute; reflexivity|].
    cbn [th width counts radii].
    split; [repeat constructor|].
    split; [reflexivity|].
    split; [repeat constructor|].
    split; reflexivity.
  - eexists. split; [vm_compute; reflexivity|].
    cbn [counts radii].
    split; [reflexivity | repeat constructor].
Qed.

(** ** The cleaner *)

Lemma values_combine {A : Type} (ls : list nat) (vs : list A) :
  List.length ls = List.length vs -> values (combine ls vs) = vs.
Proof.
  revert vs; induction ls as [|l ls IH]; intros [|v vs] H; simpl in *;
    try discriminate; [reflexivity|].
  f_equal. apply IH. lia.
Qed.


Lemma values_column {A : Type} (col : row -> A) (df : DataFrame) :
  values (column col df) = map col df.
Proof.
  unfold column, range. apply values_combine.
  rewrite length_seq, length_map. reflexivity.
Qed.

Lemma loc1_from {A : Type} (col : row -> A) (l : list row) (k j : nat) :
  loc1 (combine (seq k (List.length l)) (map col l)) (k + j) =
  option_map col (nth_error l j).
Proof.
  revert k j. induction l as [|r l IH]; intros k j; simpl.
  - destruct j; reflexivity.
  - destruct j as [|j].
    + rewrite Nat.add_0_r, Nat.eqb_refl. reflexivity.
    + destruct (Nat.eqb_spec k (k + S j)) as [E|_]; [lia|].
      replace (k + S j)%nat with (S k + j)%nat by lia. apply IH.
Qed.

Lemma loc1_column {A : Type} (col : row -> A) (df : DataFrame) (j : nat) :
  loc1 (column col df) j = option_map col (nth_error df j).
Proof. exact (loc1_from col df 0 j). Qed.

(** Looking up positions of rows in a column of the table finds them. *)
Lemma getitem_column {A : Type} (col : row -> A) (df : DataFrame)
      (key : list nat) (rows : list row) :
  Forall2 (fun j r => nth_error df j = Some r) key rows ->
  getitem (column col df) key = Ok (combine key (map col rows)).
Proof.
  intros H. unfold getitem. induction H as [|j r key rows Hj _ IH]; simpl.
  - reflexivity.
  - rewrite loc1_column, Hj. simpl. rewrite IH. reflexivity.
Qed.

Lemma where_from_rows (keep : row -> bool) (pre l : list row) :
  Forall2 (fun j r => nth_error (pre ++ l) j = Some r)
          (Np.where_from (List.length pre) (map keep l)) (filter keep l).
Proof.
  revert pre. induction l as [|a l IH]; intros pre; simpl.
  - constructor.
  - specialize (IH (pre ++ [a])).
    rewrite <- app_assoc, length_app, Nat.add_1_r in IH. simpl in IH.
    destruct (keep a); [|exact IH].
    constructor; [|exact IH].
    rewrite nth_error_app2, Nat.sub_diag by lia. reflexivity.
Qed.

Lemma where_rows (keep : row -> bool) (df : DataFrame) :
  Forall2 (fun j r => nth_error df j = Some r)
          (Np.where_ (map keep df)) (filter keep df).
Proof. exact (where_from_rows keep [] df). Qed.

Lemma clean_mask (df : DataFrame) :
  map (fun '(d, s) => negb (isnan d) && negb (isnan s))
      (combine (values (column WDF5 df)) (values (column WSF5 df))) =
  map is_clean df.
Proof.
  rewrite !values_column. induction df as [|r df IH]; simpl.
  - reflexivity.
  - rewrite IH. reflexivity.
Qed.

(** The three Series the cleaner returns. *)
Lemma clean_wind_data_Ok (df : DataFrame) :
  let index := Np.where_ (map is_clean df) in
  let kept := filter is_clean df in
  _clean_wind_data df =
  Ok (combine index (map DATE kept),
      combine index (map WDF5 kept),
      combine index (map WSF5 kept)).
Proof.
  intros index kept. unfold _clean_wind_data. rewrite clean_mask.
  fold index.
  pose proof (where_rows is_clean df) as Hrows. fold index kept in Hrows.
  rewrite !(getitem_column _ df index kept Hrows). reflexivity.
Qed.


(** ** Monthly grouping *)











(** ** The monthly histograms *)

(** C5 at a table whose first row is dropped by the cleaner: the twelve
    clean samples, one per month, keep the labels 1..12 and the aggregate
    histogram counts all twelve; month 1 asks for label 0, which is not
    there, and month 2 asks for label 1, which is the January sample; the
    lookup raises KeyError and no monthly histogram is produced. *)
Theorem monthly_lookup_is_by_label :
  Forall (fun r => is_iso_date (DATE r) = true) year_with_gap /\
  (exists date wd ws p,
     _clean_wind_data year_with_gap = Ok (date, wd, ws) /\
     labels wd = [1; 2; 3; 4; 5; 6; 7; 8; 9; 10; 11; 12]%nat /\
     _polar_histogram (map Np.deg2rad (values wd)) hist_bins = Ok p /\
     Np.sum (counts p) = 12%nat /\
     Np.where_ (month_mask 0 (values date)) = [0%nat] /\
     loc1 wd 0 = None /\
     Np.where_ (month_mask 1 (values date)) = [1%nat] /\
     loc1 wd 1 = Some (Num 15) /\
     nth_error (values wd) 1 = Some (Num 25) /\
     month_histogram hist_bins date wd 0 = Raise KeyError) /\
  main year_with_gap = Raise KeyError.
Proof.
  split; [repeat constructor|].
  split; [|vm_compute; reflexivity].
  do 4 eexists.
  split; [vm_compute; reflexivity|].
  split; [reflexivity|].
  split; [vm_compute; reflexivity|].
  repeat split; vm_compute; reflexivity.
Qed.

(** *** When the labels are the positions *)









Lemma add_counts_map {A : Type} (f g : A -> nat) (l : list A) :
  add_counts (map f l) (map g l) = map (fun k => (f k + g k)%nat) l.
Proof. induction l as [|a l IH]; simpl; [|rewrite IH]; reflexivity. Qed.




Example monthly_counts_sum_two_rows :
  exists all monthly,
    main [mkrow "2018-01-02" (Num 15) (Num 5);
          mkrow "2018-02-02" (Num 25) (Num 5);
          mkrow "2018-02-03" NaN (Num 5)] = Ok (all, monthly) /\
    sum_counts hist_bins monthly = counts all /\
    Np.sum (counts all) = 2%nat.
Proof.
  do 2 eexists. split; [vm_compute; reflexivity|].
  split; reflexivity.
Qed.

(** ** More on the cleaner *)

Lemma loc1_cleaned {A : Type} (col : row -> A) (rows : list row) (k l : nat) :
  loc1 (combine (Np.where_from k (map is_clean rows))
                (map col (filter is_clean rows))) l =
  if (k <=? l)%nat then
    match nth_error rows (l - k) with
    | Some r => if is_clean r then Some (col r) else None
    | None => None
    end
  else None.
Proof.
  revert k. induction rows as [|a rows IH]; intros k.
  - simpl. destruct (k <=? l)%nat; [destruct (l - k)%nat|]; reflexivity.
  - cbn [map Np.where_from filter].
    assert (Htail :
              loc1 (combine (Np.where_from (S k) (map is_clean rows))
                            (map col (filter is_clean rows))) l =
              if (k <? l)%nat then
                match nth_error (a :: rows) (l - k) with
                | Some r => if is_clean r then Some (col r) else None
                | None => None
                end
              else None).
    { rewrite IH. unfold Nat.ltb.
      destruct (Nat.leb_spec (S k) l) as [Hlt|Hge]; [|reflexivity].
      replace (l - k)%nat with (S (l - S k)) by lia. reflexivity. }
    destruct (lt_eq_lt_dec k l) as [[Hlt|Heq]|Hgt].
    + assert (E1 : (k <=? l)%nat = true) by (apply Nat.leb_le; lia).
      assert (E2 : (k <? l)%nat = true) by (apply Nat.ltb_lt; lia).
      assert (E3 : (k =? l)%nat = false) by (apply Nat.eqb_neq; lia).
      rewrite E1. rewrite E2 in Htail.
      destruct (is_clean a); [cbn [map combine loc1]; rewrite E3|];
        exact Htail.
    + subst l.
      assert (E2 : (k <? k)%nat = false) by (apply Nat.ltb_irrefl).
      rewrite Nat.leb_refl, Nat.sub_diag. rewrite E2 in Htail.
      cbn [nth_error].
      destruct (is_clean a); [cbn [map combine loc1]; rewrite Nat.eqb_refl|];
        [reflexivity | exact Htail].
    + assert (E1 : (k <=? l)%nat = false) by (apply Nat.leb_gt; lia).
      assert (E2 : (k <? l)%nat = false) by (apply Nat.ltb_ge; lia).
      assert (E3 : (k =? l)%nat = false) by (apply Nat.eqb_neq; lia).
      rewrite E1. rewrite E2 in Htail.
      destruct (is_clean a); [cbn [map combine loc1]; rewrite E3|];
        exact Htail.
Qed.

Lemma loc1_cleaned_iff {A : Type} (col : row -> A) (df : DataFrame)
      (l : nat) (v : A) :
  loc1 (combine (Np.where_ (map is_clean df)) (map col (filter is_clean df))) l
  = Some v <->
  exists r, nth_error df l = Some r /\ is_clean r = true /\ col r = v.
Proof.
  unfold Np.where_. rewrite loc1_cleaned. simpl. rewrite Nat.sub_0_r.
  destruct (nth_error df l) as [r|].
  - destruct (is_clean r) eqn:Hr; split.
    + intros H. injection H as <-. eauto.
    + intros (r' & Hr' & _ & <-). injection Hr' as <-. reflexivity.
    + discriminate.
    + intros (r' & Hr' & Hc & _). injection Hr' as <-. congruence.
  - split; [discriminate | intros (r & Hr & _); discriminate].
Qed.








(** ** More on the binner *)

(** X4: the bar angles handed to [ax.bar] are the lower edges of the bins
    used for counting: bar [i] is at [width * i], the first bar at 0, and
    [bins] widths make the full turn 2 pi. *)
Theorem bars_sit_on_lower_edges (heading_rad : list float64) (bins : nat) :
  (1 <= bins)%nat ->
  exists p,
    _polar_histogram heading_rad bins = Ok p /\
    List.length (theta p) = bins /\
    (forall i, (i < bins)%nat ->
       nth i (theta p) 0 == width p * inject_Z (Z.of_nat i)) /\
    0 < width p /\
    width p * inject_Z (Z.of_nat bins) == 2 * Np.pi.
Proof.
  intros Hb. eexists. split; [apply polar_histogram_Ok; exact Hb|].
  cbn [theta width]. unfold Np.linspace.
  split; [unfold range; rewrite length_map, length_seq; reflexivity|].
  split; [|split; [apply width_pos; exact Hb | apply width_tiles; exact Hb]].
  intros i Hi.
  rewrite (nth_map_range
             (fun i => inject_Z (Z.of_nat i)
                       * ((2 * Np.pi - 0) / inject_Z (Z.of_nat bins)) + 0))
    by exact Hi.
  pose proof (inject_nat_pos bins Hb). field. lra.
Qed.

Lemma bars_sit_on_lower_edges_witness :
  (1 <= 20)%nat /\
  exists p,
    _polar_histogram [Num 1] 20 = Ok p /\
    nth 5 (theta p) 0 == width p * inject_Z (Z.of_nat 5).
Proof.
  split; [lia|].
  destruct (bars_sit_on_lower_edges [Num 1] 20) as (p & Hp & _ & Hth & _);
    [lia|].
  exists p. split; [exact Hp | apply Hth; lia].
Defined.

Lemma In_le_sum (c : nat) (l : list nat) : In c l -> (c <= Np.sum l)%nat.
Proof.
  induction l as [|a l IH]; simpl; [contradiction|].
  intros [->|H]; [lia | specialize (IH H); lia].
Qed.

Lemma sum_zero_all_zero (l : list nat) :
  Np.sum l = 0%nat -> l = repeat 0%nat (List.length l).
Proof.
  induction l as [|a l IH]; simpl; [reflexivity|].
  intros H. assert (a = 0%nat) by lia. subst a.
  rewrite <- IH by lia. reflexivity.
Qed.

(** X5: the normalized frequencies are all NaN when no sample is counted,
    and otherwise every one is a finite number between 0 and 1, the bin's
    count over the total count. *)
Theorem radii_all_nan_or_all_fractions
        (heading_rad : list float64) (bins : nat) :
  (1 <= bins)%nat ->
  exists p,
    _polar_histogram heading_rad bins = Ok p /\
    (Np.sum (counts p) = 0%nat -> radii p = repeat NaN bins) /\
    (Np.sum (counts p) <> 0%nat ->
     forall i, (i < bins)%nat ->
       exists q,
         nth i (radii p) NaN = Num q /\
         q == inject_Z (Z.of_nat (nth i (counts p) 0%nat))
              / inject_Z (Z.of_nat (Np.sum (counts p))) /\
         0 <= q /\ q <= 1).
Proof.
  intros Hb. eexists. split; [apply polar_histogram_Ok; exact Hb|].
  cbn [counts radii].
  set (c := map _ (range bins)).
  assert (Hlen : List.length c = bins)
    by (unfold c, range; rewrite length_map, length_seq; reflexivity).
  split.
  - intros Hz. rewrite Hz. rewrite (sum_zero_all_zero c Hz), Hlen.
    apply zero_over_zero.
  - intros Hnz i Hi.
    set (T := Np.sum c) in *.
    assert (HT : 0 < inject_Z (Z.of_nat T)) by (apply inject_nat_pos; lia).
    rewrite (nth_indep _ NaN (true_divide (Z.of_nat 0) (Z.of_nat T)))
      by (rewrite length_map; lia).
    rewrite (map_nth (fun n => true_divide (Z.of_nat n) (Z.of_nat T)) c 0%nat i).
    set (n := nth i c 0%nat).
    assert (Hn : (n <= T)%nat).
    { apply In_le_sum. apply nth_In. lia. }
    unfold true_divide.
    destruct (Z.eqb_spec (Z.of_nat T) 0) as [E|_]; [lia|].
    eexists. split; [reflexivity|]. split; [reflexivity|].
    assert (H0 : 0 <= inject_Z (Z.of_nat n)).
    { change 0 with (inject_Z 0). rewrite <- Zle_Qle. lia. }
    assert (H1 : inject_Z (Z.of_nat n) <= inject_Z (Z.of_nat T)).
    { rewrite <- Zle_Qle. lia. }
    split.
    + apply Qle_shift_div_l; [exact HT|]. lra.
    + apply Qle_shift_div_r; [exact HT|]. lra.
Qed.

Lemma radii_all_nan_or_all_fractions_witness :
  (1 <= 4)%nat /\
  exists p,
    _polar_histogram [Num 0; Num 1; Num 3] 4 = Ok p /\
    Np.sum (counts p) <> 0%nat /\
    exists q, nth 2 (radii p) NaN = Num q /\ 0 <= q /\ q <= 1.
Proof.
  split; [lia|].
  destruct (radii_all_nan_or_all_fractions [Num 0; Num 1; Num 3] 4)
    as (p & Hp & _ & Hfr); [lia|].
  exists p. split; [exact Hp|].
  assert (Hnz : Np.sum (counts p) <> 0%nat).
  { vm_compute in Hp. injection Hp as <-. vm_compute. discriminate. }
  split; [exact Hnz|].
  destruct (Hfr Hnz 2%nat ltac:(lia)) as (q & Hq & _ & H0 & H1).
  exists q. auto.
Defined.

Lemma in_bin_not_finite (w : Q) (i : nat) (h : float64) :
  is_finite h = false -> in_bin w i (to_polar_angle h) = false.
Proof.
  intros H. rewrite (to_polar_angle_not_finite h H). reflexivity.
Qed.

Lemma count_finite_only (w : Q) (i : nat) (hs : list float64) :
  List.length (filter (in_bin w i) (map to_polar_angle (filter is_finite hs)))
  = List.length (filter (in_bin w i) (map to_polar_angle hs)).
Proof.
  induction hs as [|h hs IH]; simpl; [reflexivity|].
  destruct (is_finite h) eqn:Hf; simpl.
  - destruct (in_bin w i (to_polar_angle h)); simpl; rewrite IH; reflexivity.
  - rewrite (in_bin_not_finite w i h Hf). exact IH.
Qed.

(** X6: NaN and infinite headings are counted in no bin: the counts and
    the normalized frequencies are those of the finite headings alone. *)
Theorem non_finite_headings_are_ignored
        (heading_rad : list float64) (bins : nat) :
  (1 <= bins)%nat ->
  exists p p',
    _polar_histogram heading_rad bins = Ok p /\
    _polar_histogram (filter is_finite heading_rad) bins = Ok p' /\
    counts p = counts p' /\
    radii p = radii p'.
Proof.
  intros Hb. do 2 eexists.
  split; [apply polar_histogram_Ok; exact Hb|].
  split; [apply polar_histogram_Ok; exact Hb|].
  cbn [counts radii].
  assert (E : map (fun i => List.length
                              (filter (in_bin (2 * Np.pi / inject_Z (Z.of_nat bins)) i)
                                      (map to_polar_angle heading_rad)))
                  (range bins) =
              map (fun i => List.length
                              (filter (in_bin (2 * Np.pi / inject_Z (Z.of_nat bins)) i)
                                      (map to_polar_angle
                                           (filter is_finite heading_rad))))
                  (range bins)).
  { apply map_ext. intros i. symmetry. apply count_finite_only. }
  rewrite E. split; reflexivity.
Qed.

Lemma non_finite_headings_are_ignored_witness :
  (1 <= 4)%nat /\
  exists p p',
    _polar_histogram [Num 1; NaN; Inf false; Num 3] 4 = Ok p /\
    _polar_histogram [Num 1; Num 3] 4 = Ok p' /\
    counts p = counts p'.
Proof.
  split; [lia|].
  destruct (non_finite_headings_are_ignored [Num 1; NaN; Inf false; Num 3] 4)
    as (p & p' & Hp & Hp' & Hc & _); [lia|].
  exists p, p'. auto.
Defined.

Lemma count_perm {A : Type} (f : A -> bool) (l l' : list A) :
  Permutation l l' -> List.length (filter f l) = List.length (filter f l').
Proof.
  intros H. induction H as [|a l l' _ IH|a b l|l l' l'' _ IH1 _ IH2]; simpl.
  - reflexivity.
  - destruct (f a); simpl; rewrite IH; reflexivity.
  - destruct (f a), (f b); reflexivity.
  - congruence.
Qed.

(** X7: the histogram does not depend on the order of the samples: two
    heading sequences that are permutations of one another give the same
    counts and the same normalized frequencies. *)
Theorem histogram_ignores_sample_order
        (heading_rad heading_rad' : list float64) (bins : nat) :
  (1 <= bins)%nat ->
  Permutation heading_rad heading_rad' ->
  exists p p',
    _polar_histogram heading_rad bins = Ok p /\
    _polar_histogram heading_rad' bins = Ok p' /\
    counts p = counts p' /\
    radii p = radii p'.
Proof.
  intros Hb Hperm. do 2 eexists.
  split; [apply polar_histogram_Ok; exact Hb|].
  split; [apply polar_histogram_Ok; exact Hb|].
  cbn [counts radii].
  set (w := 2 * Np.pi / inject_Z (Z.of_nat bins)).
  assert (E : map (fun i => List.length
                              (filter (in_bin w i)
                                      (map to_polar_angle heading_rad)))
                  (range bins) =
              map (fun i => List.length
                              (filter (in_bin w i)
                                      (map to_polar_angle heading_rad')))
                  (range bins)).
  { apply map_ext. intros i. apply count_perm.
    apply Permutation_map. exact Hperm. }
  rewrite E. split; reflexivity.
Qed.

Lemma histogram_ignores_sample_order_witness :
  (1 <= 4)%nat /\
  Permutation [Num 1; Num 3; Num 2] [Num 2; Num 1; Num 3] /\
  exists p p',
    _polar_histogram [Num 1; Num 3; Num 2] 4 = Ok p /\
    _polar_histogram [Num 2; Num 1; Num 3] 4 = Ok p' /\
    counts p = counts p'.
Proof.
  assert (Hperm : Permutation [Num 1; Num 3; Num 2] [Num 2; Num 1; Num 3]).
  { apply Permutation_sym. apply (Permutation_cons_app [Num 1; Num 3] []).
    apply Permutation_refl. }
  split; [lia|]. split; [exact Hperm|].
  destruct (histogram_ignores_sample_order
              [Num 1; Num 3; Num 2] [Num 2; Num 1; Num 3] 4 ltac:(lia) Hperm)
    as (p & p' & Hp & Hp' & Hc & _).
  exists p, p'. auto.
Defined.

(** X8: binning two samples sets together adds their counts bin by
    bin. *)
Theorem counts_add_over_concatenation
        (heading_rad heading_rad' : list float64) (bins : nat) :
  (1 <= bins)%nat ->
  exists p p' p'',
    _polar_histogram heading_rad bins = Ok p /\
    _polar_histogram heading_rad' bins = Ok p' /\
    _polar_histogram (heading_rad ++ heading_rad') bins = Ok p'' /\
    counts p'' = add_counts (counts p) (counts p') /\
    Np.sum (counts p'') = (Np.sum (counts p) + Np.sum (counts p'))%nat.
Proof.
  intros Hb. do 3 eexists.
  split; [apply polar_histogram_Ok; exact Hb|].
  split; [apply polar_histogram_Ok; exact Hb|].
  split; [apply polar_histogram_Ok; exact Hb|].
  cbn [counts].
  set (w := 2 * Np.pi / inject_Z (Z.of_nat bins)).
  rewrite add_counts_map.
  assert (E : forall i,
             List.length (filter (in_bin w i)
                                 (map to_polar_angle
                                      (heading_rad ++ heading_rad'))) =
             (List.length (filter (in_bin w i)
                                  (map to_polar_angle heading_rad))
              + List.length (filter (in_bin w i)
                                    (map to_polar_angle heading_rad')))%nat).
  { intros i. rewrite map_app, filter_app, length_app. reflexivity. }
  rewrite (map_ext _ _ E).
  split; [reflexivity|].
  generalize (range bins) as l. clear.
  induction l as [|i l IH]; simpl; [reflexivity|].
  rewrite IH. lia.
Qed.

Lemma counts_add_over_concatenation_witness :
  (1 <= 4)%nat /\
  exists p p' p'',
    _polar_histogram [Num 1] 4 = Ok p /\
    _polar_histogram [Num 3; Num 1] 4 = Ok p' /\
    _polar_histogram [Num 1; Num 3; Num 1] 4 = Ok p'' /\
    counts p'' = add_counts (counts p) (counts p').
Proof.
  split; [lia|].
  destruct (counts_add_over_concatenation [Num 1] [Num 3; Num 1] 4)
    as (p & p' & p'' & Hp & Hp' & Hp'' & Hc & _); [lia|].
  exists p, p', p''. auto.
Defined.












(** X11: the heading transform undoes itself: applied twice to a finite
    heading it gives the heading modulo 2 pi, so a heading from 0
    (included) to 2 pi (excluded) comes back unchanged. *)
Theorem heading_transform_is_an_involution (q : Q) :
  exists r,
    to_polar_angle (to_polar_angle (Num q)) = Num r /\
    is_mod q (2 * Np.pi) r /\
    (0 <= q -> q < 2 * Np.pi -> r == q).
Proof.
  destruct (to_polar_angle_spec q) as (x & Hx & Hqx).
  destruct (to_polar_angle_spec x) as (r & Hr & Hxr).
  exists r. rewrite Hx. split; [exact Hr|].
  unfold spec_transform in *.
  assert (Hmod : is_mod q (2 * Np.pi) r).
  { destruct Hqx as (_ & _ & k & Hk), Hxr as (H0 & H1 & j & Hj).
    repeat split; try assumption.
    exists (j - k)%Z. unfold Z.sub. rewrite inject_Z_plus, inject_Z_opp. lra. }
  split; [exact Hmod|].
  intros H0 H1.
  apply (is_mod_unique q (2 * Np.pi)); [exact two_pi_pos | exact Hmod |].
  repeat split; try assumption. exists 0%Z. change (inject_Z 0) with 0. ring.
Qed.

(** ** When [main] raises *)








(** ** When the monthly histograms are right *)





(** ** The figure layout *)

Lemma int_of_sixth (i : nat) :
  Z.to_nat (int_ (inject_Z (Z.of_nat i) / 6)) = (i / 6)%nat.
Proof.
  unfold int_. simpl. rewrite Z.mul_1_r.
  rewrite Z.quot_div_nonneg by lia.
  change 6%Z with (Z.of_nat 6). rewrite <- Nat2Z.inj_div. apply Nat2Z.id.
Qed.

(** X14: the thirteen axes of the figure tile its 2 by 8 grid: month [i]
    (0-based) is at row [i / 6], column [i mod 6 + 2], every axes lies
    inside the grid, and every grid cell lies under exactly one axes, so
    no two plots overlap and no cell is left empty. *)
Theorem subplots_tile_the_grid :
  (forall i, loc (month_subplot i) = ((i / 6)%nat, (i mod 6 + 2)%nat)) /\
  List.length main_subplots = 13%nat /\
  Forall (fun s => inside_grid s = true /\ shape s = (2, 8)%nat)
         main_subplots /\
  (forall r c, (r < 2)%nat -> (c < 8)%nat ->
     List.length (filter (fun s => covers s (r, c)) main_subplots) = 1%nat).
Proof.
  split; [|split; [|split]].
  - intros i. unfold month_subplot. cbn [loc]. rewrite int_of_sixth.
    reflexivity.
  - reflexivity.
  - repeat constructor.
  - intros r c Hr Hc.
    assert (Hr' : r = 0%nat \/ r = 1%nat) by lia.
    assert (Hc' : c = 0%nat \/ c = 1%nat \/ c = 2%nat \/ c = 3%nat \/
                  c = 4%nat \/ c = 5%nat \/ c = 6%nat \/ c = 7%nat) by lia.
    destruct Hr' as [->| ->];
      repeat (destruct Hc' as [->|Hc']; [reflexivity|]);
      subst c; reflexivity.
Qed.

(** ** Which rows a monthly histogram shows *)

Lemma getitem_Ok {A : Type} (s : Series A) (key : list nat) (s' : Series A) :
  getitem s key = Ok s' ->
  Forall2 (fun j lv => fst lv = j /\ loc1 s j = Some (snd lv)) key s'.
Proof.
  unfold getitem. revert s'. induction key as [|j key IH]; simpl; intros s' H.
  - injection H as <-. constructor.
  - destruct (loc1 s j) as [v|] eqn:Hj; simpl in H; [|discriminate].
    destruct (for_each _ key) as [rest|] eqn:Hrest; simpl in H;
      [|discriminate].
    injection H as <-. constructor; [simpl; auto | apply IH; reflexivity].
Qed.

(** X15: a monthly histogram that is produced shows, for each position
    [j] of the cleaned dates whose date matches the month, the direction
    of the clean table row numbered [j]: the row is found by its number in
    the table, not by its place among the cleaned rows. *)
Theorem month_histogram_reads_rows_by_number
        (bins i : nat) (df : DataFrame)
        (date : Series string) (wd ws : Series float64) (h : polar) :
  _clean_wind_data df = Ok (date, wd, ws) ->
  month_histogram bins date wd i = Ok h ->
  Forall2 (fun j t =>
             exists r, nth_error df j = Some r /\ is_clean r = true /\
                       t = to_polar_angle (Np.deg2rad (WDF5 r)))
          (Np.where_ (month_mask i (values date))) (th h).
Proof.
  intros Hclean Hm.
  rewrite clean_wind_data_Ok in Hclean. injection Hclean as <- <- _.
  unfold month_histogram in Hm.
  destruct (getitem _ _) as [wdi|] eqn:Hg; simpl in Hm; [|discriminate].
  apply getitem_Ok in Hg.
  assert (Hth : th h = map to_polar_angle (map Np.deg2rad (values wdi))).
  { unfold _polar_histogram in Hm.
    destruct (bins =? 0)%nat; [discriminate|].
    injection Hm as <-. reflexivity. }
  rewrite Hth. clear Hth Hm.
  induction Hg as [|j lv key s' [_ Hj] _ IH]; simpl; constructor.
  - apply loc1_cleaned_iff in Hj. destruct Hj as (r & Hr & Hc & Hv).
    exists r. rewrite Hv. auto.
  - exact IH.
Qed.

Lemma month_histogram_reads_rows_by_number_witness :
  let df := [mkrow "2018-02-02" (Num 25) (Num 5);
             mkrow "2018-01-01" NaN (Num 5);
             mkrow "2018-03-02" (Num 35) (Num 5)] in
  exists date wd ws h,
    _clean_wind_data df = Ok (date, wd, ws) /\
    month_histogram 20 date wd 1 = Ok h /\
    Np.where_ (month_mask 1 (values date)) = [0%nat] /\
    Forall2 (fun j t =>
               exists r, nth_error df j = Some r /\ is_clean r = true /\
                         t = to_polar_angle (Np.deg2rad (WDF5 r)))
            [0%nat] (th h).
Proof.
  intros df.
  pose proof (clean_wind_data_Ok df) as Hc. cbv zeta in Hc.
  lazymatch type of Hc with
  | _ = Ok (?d, ?w, ?s) => exists d, w, s
  end.
  destruct (month_histogram 20 _ _ 1) as [h|] eqn:Hm;
    [|vm_compute in Hm; discriminate].
  exists h.
  split; [exact Hc|]. split; [reflexivity|].
  split; [reflexivity|].
  exact (month_histogram_reads_rows_by_number 20 1 df _ _ _ h Hc Hm).
Defined.
